(** * Verification of the scroll-progress mapper, the skyline generator and
    the theme hook of the portfolio site (silveriale/sitecurriculo).

    Numbers.  JavaScript numbers are modelled as exact rationals [Q]: the
    shape properties of the animation curves (values at breakpoints,
    monotonicity, continuity, clamping) are statements about the real
    functions the code computes.  The one place where binary64 rounding
    matters (the endpoint of [20 + Math.random() * 60]) is modelled with
    Rocq's primitive IEEE-754 floats in module [FloatHeight]. *)

From Stdlib Require Import QArith Qabs Lqa List.
From Stdlib Require Import PrimFloat Ascii String.
From Stdlib Require DecimalNat.
From stdpp Require Import base gmap strings.
Import ListNotations.

Open Scope Q_scope.

(** ** framer-motion's [interpolate], as used by [useTransform]

    [useTransform(value, input, output)] builds [interpolate(input, output)]
    with the default option [clamp: true] and no easing.  The helpers below
    follow motion-utils / motion-dom:
    - [progress(from, to, value)]: [to - from === 0 ? 1 : (value - from) / (to - from)]
    - [mixNumber(from, to, p)]: [from + (to - from) * p]
    - [clamp(min, max, v)]: [v > max ? max : v < min ? min : v] *)

Definition progress (from to value : Q) : Q :=
  let toFromDifference := to - from in
  if Qeq_dec toFromDifference 0 then 1 else (value - from) / toFromDifference.

Definition mixNumber (from to p : Q) : Q := from + (to - from) * p.

Definition clamp (min max v : Q) : Q :=
  if Qlt_le_dec max v then max else if Qlt_le_dec v min then min else v.

(** The segment search of the interpolator:
    [for (; i < input.length - 2; i++) { if (v < input[i + 1]) break }]. *)
Fixpoint seg_index (input : list Q) (v : Q) (i fuel : nat) : nat :=
  match fuel with
  | O => i
  | S fuel' =>
      if Qlt_le_dec v (nth (S i) input 0) then i
      else seg_index input v (S i) fuel'
  end.

(** [interpolator(v)] on (already reversed if needed) ranges. *)
Definition interpolator (isZeroDeltaRange : bool) (input output : list Q)
  (v : Q) : Q :=
  let numMixers := (length output - 1)%nat in
  if isZeroDeltaRange && (if Qlt_le_dec v (nth 0 input 0) then true else false)
  then nth 0 output 0
  else
    let i := if Nat.ltb 1 numMixers then seg_index input v O (length input - 2)%nat
             else O in
    let progressInRange := progress (nth i input 0) (nth (S i) input 0) v in
    mixNumber (nth i output 0) (nth (S i) output 0) progressInRange.

Definition interpolate (input output : list Q) (v : Q) : Q :=
  let inputLength := length input in
  if Nat.eqb inputLength 1 then nth 0 output 0
  else if Nat.eqb inputLength 2 &&
          (if Qeq_dec (nth 0 output 0) (nth 1 output 0) then true else false)
  then nth 1 output 0
  else
    let isZeroDeltaRange :=
      if Qeq_dec (nth 0 input 0) (nth 1 input 0) then true else false in
    let last := nth (inputLength - 1)%nat input 0 in
    let '(input, output) :=
      if Qlt_le_dec last (nth 0 input 0) then (rev input, rev output)
      else (input, output) in
    interpolator isZeroDeltaRange input output
      (clamp (nth 0 input 0) (nth (inputLength - 1)%nat input 0) v).

(** ** [useScrollProgress] (src/hooks/useScrollProgress.ts) *)

Definition sceneOpacity1 (smoothProgress : Q) : Q :=
  interpolate [0; 0.15; 0.25] [1; 1; 0] smoothProgress.

Definition sceneOpacity3 (smoothProgress : Q) : Q :=
  interpolate [0.45; 0.55; 0.6; 0.65] [0; 1; 1; 0] smoothProgress.

Inductive PointerEvents := auto | none.

Definition scene3PointerEvents (smoothProgress : Q) : PointerEvents :=
  let value := sceneOpacity3 smoothProgress in
  if Qlt_le_dec 0.1 value then auto else none.

Definition sceneOpacity4 (smoothProgress : Q) : Q :=
  interpolate [0.65; 0.75] [0; 1] smoothProgress.

Definition scene1TranslateY (smoothProgress : Q) : Q :=
  interpolate [0; 0.25] [0; -100] smoothProgress.

(** ** [WaveTransition] (src/components/WaveTransition.tsx, the version that
    imports [TECHNOLOGIES], used with the [useScrollProgress] App; the other
    copy in the same file ends at ["-118vh"]).  The values are strings in
    [vh], interpolated on their numeric part, here the number of [vh]. *)

Definition waveY (progress : Q) : Q :=
  interpolate [0.2; 0.3; 0.35; 0.45] [100; 0; 0; -120] progress.

(** ** Skyline generator (src/utils/buildingGenerator.ts)

    [Math.random()] is a source of draws: [Rand A] reads the stream of draws
    [random : nat -> Q] and threads the number of draws taken so far. *)

Definition Rand (A : Type) : Type := (nat -> Q) -> nat -> A * nat.

Definition ret {A} (a : A) : Rand A := fun _ p => (a, p).

Definition bind {A B} (m : Rand A) (k : A -> Rand B) : Rand B :=
  fun random p => let '(a, p') := m random p in k a random p'.

Declare Scope rand_scope.
Notation "x <- m ;; k" := (bind m (fun x => k))
  (at level 100, m at next level, right associativity) : rand_scope.
Local Open Scope rand_scope.

(** One call of [Math.random()]. *)
Definition mathRandom : Rand Q := fun random p => (random p, S p).

(** The comparison [a > b] of JavaScript as a boolean. *)
Definition gtb (a b : Q) : bool := if Qlt_le_dec b a then true else false.

Fixpoint mapM {A B} (f : A -> Rand B) (l : list A) : Rand (list B) :=
  match l with
  | [] => ret []
  | x :: l' => y <- f x ;; ys <- mapM f l' ;; ret (y :: ys)
  end.

(** [Array.from({ length }, (_, index) => f(index))]: the callback runs for
    the indices [0 .. length - 1] in order. *)
Definition arrayFrom {B} (length : nat) (f : nat -> Rand B) : Rand (list B) :=
  mapM f (seq 0 length).

Module BuildingWindow.
Record t := mk { id : nat; isYellow : bool; opacity : Q }.
End BuildingWindow.

Module Building.
Record t := mk
  { id : nat; height : Q; windows : list BuildingWindow.t; hasAntenna : bool }.
End Building.

(** [generateWindow]: the object literal evaluates [isYellow] before
    [opacity], so the first draw decides the colour, the second the opacity. *)
Definition generateWindow (id : nat) : Rand BuildingWindow.t :=
  u1 <- mathRandom ;;
  u2 <- mathRandom ;;
  ret (BuildingWindow.mk id (gtb u1 0.8) u2).

Definition generateWindows (count : nat) : Rand (list BuildingWindow.t) :=
  arrayFrom count (fun index => generateWindow index).

(** [generateBuilding]: [height] (one draw), then the windows, then
    [hasAntenna] (one draw). *)
Definition generateBuilding (id windowCount : nat) : Rand Building.t :=
  u <- mathRandom ;;
  windows <- generateWindows windowCount ;;
  a <- mathRandom ;;
  ret (Building.mk id (20 + u * 60) windows (gtb a 0.6)).

Definition generateBuildings (buildingCount windowsPerBuilding : nat)
  : Rand (list Building.t) :=
  arrayFrom buildingCount (fun index => generateBuilding index windowsPerBuilding).

Local Close Scope rand_scope.

(** The building generated at draw position [q]. *)
Definition building_at (random : nat -> Q) (w id q : nat) : Building.t :=
  Building.mk id (20 + random q * 60)
    (map (fun j => BuildingWindow.mk j (gtb (random (S q + j * 2)%nat) 0.8)
                                     (random (S (S q + j * 2))))
         (seq 0 w))
    (gtb (random (S q + w * 2)%nat) 0.6).

(** Continuity at a point, in epsilon-delta form. *)
Definition continuous_at (g : Q -> Q) (b : Q) : Prop :=
  forall eps, 0 < eps ->
  exists delta, 0 < delta /\ forall x, Qabs (x - b) < delta -> Qabs (g x - g b) < eps.

Definition lipschitz (g : Q -> Q) (L : Q) : Prop :=
  forall x y, Qabs (g x - g y) <= L * Qabs (x - y).

(** ** Binary64 evaluation of the height expression

    [height: 20 + Math.random() * 60] evaluated as the code does, in IEEE-754
    binary64 with round-to-nearest-even, on a draw [u] of [Math.random()]. *)
Module FloatHeight.
Local Open Scope float_scope.

Definition height (u : float) : float := 20 + u * 60.

(** The largest binary64 number below 1, [1 - 2^-53]. *)
Definition largest_draw : float := 1 - 1 / 9007199254740992.
End FloatHeight.

(** ** [useTheme] (src/unnamed/part_005)

    The host: [None] when [typeof window === 'undefined'], otherwise the
    browser's [localStorage] and the [prefers-color-scheme: dark] media
    query.  Themes are the strings the code stores. *)
Module ThemeHook.
Local Open Scope string_scope.

Record Browser := mkBrowser
  { localStorage : gmap string string; prefersDark : bool }.

Definition getInitialTheme (window : option Browser) : string :=
  match window with
  | None => "light"
  | Some b =>
      let savedTheme := localStorage b !! "theme" in
      let fromSystem := if prefersDark b then "dark" else "light" in
      match savedTheme with
      | Some s => if bool_decide (s = "light" \/ s = "dark") then s else fromSystem
      | None => fromSystem
      end
  end.

(** The hook's state in the browser: the React state [theme], the
    [localStorage] map, the [data-theme] attribute of the root element and
    the dependency value of the last run of the [useEffect]. *)
Record HookState := mkHookState
  { theme : string; storage : gmap string string;
    dataTheme : option string; effectDeps : option string }.

(** The effect body: remove then set [data-theme], and
    [localStorage.setItem('theme', theme)]. *)
Definition themeEffect (st : HookState) : HookState :=
  mkHookState (theme st) (<["theme" := theme st]> (storage st))
    (Some (theme st)) (Some (theme st)).

(** After a render, the effect runs when its dependency [theme] changed. *)
Definition commit (st : HookState) : HookState :=
  if decide (effectDeps st = Some (theme st)) then st else themeEffect st.

Definition mount (b : Browser) : HookState :=
  commit (mkHookState (getInitialTheme (Some b)) (localStorage b) None None).

(** The updater passed to [setTheme] by [toggleTheme]. *)
Definition toggleUpdater (prevTheme : string) : string :=
  if decide (prevTheme = "light") then "dark" else "light".

Definition toggleTheme (st : HookState) : HookState :=
  commit (mkHookState (toggleUpdater (theme st)) (storage st)
            (dataTheme st) (effectDeps st)).

(** States reachable in a browser: mount, then any number of toggles. *)
Inductive reachable (b : Browser) : HookState -> Prop :=
| reachable_mount : reachable b (mount b)
| reachable_toggle st : reachable b st -> reachable b (toggleTheme st).
End ThemeHook.

(** ** More progress curves *)

(** [contentOpacity] of [WaveTransition] (the marquee inside the wave). *)
Definition contentOpacity (progress : Q) : Q :=
  interpolate [0.25; 0.3; 0.35; 0.4] [0; 1; 1; 0] progress.

(** [BackgroundLayer] (src/components/BackgroundLayer.tsx). *)
Definition sunY (progress : Q) : Q := interpolate [0; 0.3] [100; -200] progress.

Definition sunOpacity (progress : Q) : Q := interpolate [0.2; 0.3] [1; 0] progress.

Definition cityY (progress : Q) : Q := interpolate [0.3; 0.55] [600; 0] progress.

Definition cityOpacity (progress : Q) : Q := interpolate [0.35; 0.5] [0; 1] progress.

(** ** Other generators driven by [Math.random()] *)

Local Open Scope rand_scope.

(** [CitySkyline] (src/unnamed/part_002): the memoised buildings. *)
Definition citySkylineBuildings (isMobile : bool) : Rand (list Building.t) :=
  let buildingCount := if isMobile then 8%nat else 15%nat in
  let windowsPerBuilding := if isMobile then 6%nat else 12%nat in
  generateBuildings buildingCount windowsPerBuilding.

(** The skyline built inline by [BackgroundLayer] (the IIFE with 15
    buildings of 12 windows). *)
Definition backgroundLayerBuildings : Rand (list Building.t) :=
  arrayFrom 15 (fun i =>
    height_draw <- mathRandom ;;
    windows <- arrayFrom 12 (fun j =>
      y <- mathRandom ;;
      o <- mathRandom ;;
      ret (BuildingWindow.mk j (gtb y 0.8) o)) ;;
    a <- mathRandom ;;
    ret (Building.mk i (20 + height_draw * 60) windows (gtb a 0.6))).

Inductive CloudLayer := front | back.

Module Cloud.
Record t := mk
  { id : nat; x : Q; y : Q; scale : Q; duration : Q; delay : Q; layer : CloudLayer }.
End Cloud.

(** [Clouds] (src/components/background/BeachScene.tsx): 8 clouds. *)
Definition clouds : Rand (list Cloud.t) :=
  arrayFrom 8 (fun i =>
    ux <- mathRandom ;; uy <- mathRandom ;; us <- mathRandom ;;
    ud <- mathRandom ;; ul <- mathRandom ;;
    ret (Cloud.mk i (ux * 120 - 20) (10 + uy * 40) (0.6 + us * 0.8)
                  (40 + ud * 30) (ul * 20) (if Nat.ltb i 4 then front else back))).

Module Star.
Record t := mk { id : nat; x : Q; y : Q; size : Q; opacity : Q; delay : Q }.
End Star.

(** [BeachStars] (src/components/background/BeachScene.tsx): 50 stars. *)
Definition stars : Rand (list Star.t) :=
  arrayFrom 50 (fun i =>
    ux <- mathRandom ;; uy <- mathRandom ;; us <- mathRandom ;;
    uo <- mathRandom ;; ud <- mathRandom ;;
    ret (Star.mk i (ux * 100) (uy * 60) (us * 2 + 1) (uo * 0.7 + 0.3) (ud * 3))).

Local Close Scope rand_scope.

(** ** [calcularIdade] (the constants part of src/utils/buildingGenerator.ts)

    A [Date] as its [getFullYear()], [getMonth()] (0-based) and [getDate()];
    the birth date is [new Date(2000, 1, 14)], 14 February 2000. *)
Record Date := mkDate { fullYear : Z; month : Z; date : Z }.

Definition nascimento : Date := mkDate 2000 1 14.

Definition calcularIdade (hoje : Date) : Z :=
  let idade := (fullYear hoje - fullYear nascimento)%Z in
  let mes := (month hoje - month nascimento)%Z in
  if (mes <? 0)%Z || ((mes =? 0)%Z && (date hoje <? date nascimento)%Z)
  then (idade - 1)%Z else idade.

(** Calendar order of dates: by year, then month, then day. *)
Definition date_le (a b : Date) : Prop :=
  (fullYear a < fullYear b)%Z \/
  (fullYear a = fullYear b /\ (month a < month b)%Z) \/
  (fullYear a = fullYear b /\ month a = month b /\ (date a <= date b)%Z).

(** The birthday in year [y]. *)
Definition birthday (y : Z) : Date := mkDate y (month nascimento) (date nascimento).

(** ** [repeatedTechs] of [WaveTransition]

    [`${index}`] of a non-negative integer: its decimal digits. *)
Fixpoint uint_to_string (d : Decimal.uint) : string :=
  match d with
  | Decimal.Nil => EmptyString
  | Decimal.D0 d => String "0" (uint_to_string d)
  | Decimal.D1 d => String "1" (uint_to_string d)
  | Decimal.D2 d => String "2" (uint_to_string d)
  | Decimal.D3 d => String "3" (uint_to_string d)
  | Decimal.D4 d => String "4" (uint_to_string d)
  | Decimal.D5 d => String "5" (uint_to_string d)
  | Decimal.D6 d => String "6" (uint_to_string d)
  | Decimal.D7 d => String "7" (uint_to_string d)
  | Decimal.D8 d => String "8" (uint_to_string d)
  | Decimal.D9 d => String "9" (uint_to_string d)
  end%char.

Definition nat_to_string (n : nat) : string := uint_to_string (Nat.to_uint n).

Definition TECHNOLOGIES : list string :=
  ["HTML"; "CSS"; "JavaScript"; "React"; "Tailwind CSS"; "Git"; "Github";
   "APIs"; "Docker"; "Next.js"]%string.

Module TechItem.
Record t := mk { id : string; tech : string }.
End TechItem.

(** [[...techs, ...techs, ...techs].map((tech, index) =>
    ({ id: `wave-tech-${tech}-${index}`, tech }))]. *)
Definition repeatedTechs (techs : list string) : list TechItem.t :=
  let all := techs ++ techs ++ techs in
  map (fun '(index, tech) =>
         TechItem.mk (String.append "wave-tech-"
                        (String.append tech (String.append "-" (nat_to_string index))))
                     tech)
      (combine (seq 0 (length all)) all).

Ltac split_ifs :=
  repeat (match goal with
  | |- context[Qlt_le_dec ?a ?b] =>
      lazymatch a with context[Qlt_le_dec _ _] => fail | _ =>
      lazymatch b with context[Qlt_le_dec _ _] => fail | _ =>
      destruct (Qlt_le_dec a b) end end
  | |- context[Qeq_dec ?a ?b] =>
      lazymatch a with context[Qlt_le_dec _ _] => fail | _ =>
      lazymatch b with context[Qlt_le_dec _ _] => fail | _ =>
      destruct (Qeq_dec a b) end end
  end; simpl).

(** Evaluate the inverse of a difference of two literals, so that [lra]
    sees a constant factor. *)
Ltac eval_inv :=
  unfold Qdiv in *;
  repeat match goal with
  | |- context[Qinv (Qminus (Qmake ?a ?b) (Qmake ?c ?d))] =>
      let v := eval vm_compute in (Qinv (Qminus (Qmake a b) (Qmake c d))) in
      change (Qinv (Qminus (Qmake a b) (Qmake c d))) with v
  | H : context[Qinv (Qminus (Qmake ?a ?b) (Qmake ?c ?d))] |- _ =>
      let v := eval vm_compute in (Qinv (Qminus (Qmake a b) (Qmake c d))) in
      change (Qinv (Qminus (Qmake a b) (Qmake c d))) with v in H
  end.

(** Unfold one curve down to its comparisons and split every branch. *)
Ltac curve_cases :=
  unfold interpolate; simpl;
  unfold interpolator, clamp, progress, mixNumber; simpl;
  split_ifs; eval_inv.

(** [Qabs] bounds used by the Lipschitz estimates. *)
Lemma Qabs_minus_bounds (a b : Q) : a - b <= Qabs (a - b) /\ b - a <= Qabs (a - b).
Proof.
  split; [apply Qle_Qabs|].
  rewrite Qabs_Qminus. apply Qle_Qabs.
Qed.

Lemma lipschitz_continuous (g : Q -> Q) (L : Q) :
  0 < L -> lipschitz g L -> forall b, continuous_at g b.
Proof.
  intros HL Hg b eps Heps. exists (eps / L). split.
  - apply Qlt_shift_div_l; [exact HL|]. lra.
  - intros x Hx. eapply Qle_lt_trans; [apply Hg|].
    apply (Qmult_lt_l _ _ L HL) in Hx.
    rewrite Qmult_div_r in Hx; [exact Hx|]. intros E. rewrite E in HL. discriminate.
Qed.

Ltac lipschitz_by_cases :=
  intros x y; apply Qabs_Qle_condition;
  destruct (Qabs_minus_bounds x y) as [Hxy Hyx];
  generalize dependent (Qabs (x - y)); intros a Hxy Hyx;
  curve_cases; split; lra.

Lemma sceneOpacity1_lipschitz : lipschitz sceneOpacity1 10.
Proof. unfold sceneOpacity1; lipschitz_by_cases. Qed.

Lemma sceneOpacity3_lipschitz : lipschitz sceneOpacity3 20.
Proof. unfold sceneOpacity3; lipschitz_by_cases. Qed.

Lemma sceneOpacity4_lipschitz : lipschitz sceneOpacity4 10.
Proof. unfold sceneOpacity4; lipschitz_by_cases. Qed.

Lemma scene1TranslateY_lipschitz : lipschitz scene1TranslateY 400.
Proof. unfold scene1TranslateY; lipschitz_by_cases. Qed.

Lemma waveY_lipschitz : lipschitz waveY 1200.
Proof. unfold waveY; lipschitz_by_cases. Qed.

Ltac curves := unfold sceneOpacity1, sceneOpacity3, sceneOpacity4, scene1TranslateY, waveY.

(** ** Claims about the progress mapper *)

(** C1 (as stated): at progress 0 Section1 opacity is 1, Section3 and
    Section4 opacity 0; at 0.5 Section1 opacity 0, Section3 opacity 1,
    Section4 opacity 0; at 1.0 Section4 opacity 1.  This fails: at 0.5 the
    Section3 curve is in the middle of its fade-in (0.45 to 0.55). *)
Lemma scenario_half_section3_counterexample :
  ~ (sceneOpacity1 0 == 1 /\ sceneOpacity3 0 == 0 /\ sceneOpacity4 0 == 0 /\
     sceneOpacity1 0.5 == 0 /\ sceneOpacity3 0.5 == 1 /\ sceneOpacity4 0.5 == 0 /\
     sceneOpacity4 1 == 1).
Proof.
  intros (_ & _ & _ & _ & H & _). vm_compute in H. discriminate H.
Qed.

(** C1 (amended): at progress 0 Section1 opacity is 1 and Section3 and
    Section4 opacity are 0; at 0.5 Section1 opacity is 0, Section3 opacity is
    strictly between 0 and 1 (0.5 lies inside its fade-in from 0.45 to 0.55;
    the code's binary64 division gives a value just below 0.5) and Section4
    opacity is 0; at 1.0 Section4 opacity is 1.  Section3 opacity is 1 at 0.55
    and at 0.6. *)
Theorem scenario_example_values :
  sceneOpacity1 0 == 1 /\ sceneOpacity3 0 == 0 /\ sceneOpacity4 0 == 0 /\
  sceneOpacity1 0.5 == 0 /\ 0 < sceneOpacity3 0.5 < 1 /\ sceneOpacity4 0.5 == 0 /\
  sceneOpacity4 1 == 1 /\ sceneOpacity3 0.55 == 1 /\ sceneOpacity3 0.6 == 1.
Proof. repeat split; vm_compute; reflexivity. Qed.

(** C2: for every smoothed progress [f], Section3 pointer events are
    ['auto'] exactly when Section3 opacity at [f] is strictly greater than
    0.1, and ['none'] otherwise. *)
Theorem scene3_interactive_iff_opacity (f : Q) :
  (scene3PointerEvents f = auto <-> 0.1 < sceneOpacity3 f) /\
  (scene3PointerEvents f = none <-> sceneOpacity3 f <= 0.1).
Proof.
  unfold scene3PointerEvents. cbv zeta.
  destruct (Qlt_le_dec 0.1 (sceneOpacity3 f)) as [H|H];
    repeat split; intros E; try discriminate E; try reflexivity; lra.
Qed.


(** C4: Section1 opacity never increases once progress is past 0.15, and it
    is exactly 0 for every progress [f >= 0.25]. *)
Theorem sceneOpacity1_fade_out :
  (forall f1 f2, 0.15 <= f1 -> f1 <= f2 -> sceneOpacity1 f2 <= sceneOpacity1 f1) /\
  (forall f, 0.25 <= f -> sceneOpacity1 f == 0).
Proof.
  curves. split.
  - intros f1 f2 H1 H12. curve_cases; lra.
  - intros f Hf. curve_cases; lra.
Qed.

(** C5: the Section1, Section3 and Section4 opacity curves and the Section1
    translateY curve are continuous at every point, in particular at every
    interior breakpoint (0.15 for Section1, 0.55 and 0.6 for Section3); below
    the first breakpoint each returns its first value and above the last
    breakpoint its last value. *)
Theorem section_curves_continuous_and_flat_outside :
  (forall b, continuous_at sceneOpacity1 b) /\
  (forall b, continuous_at sceneOpacity3 b) /\
  (forall b, continuous_at sceneOpacity4 b) /\
  (forall b, continuous_at scene1TranslateY b) /\
  (forall f, f < 0 -> sceneOpacity1 f == 1) /\
  (forall f, 0.25 < f -> sceneOpacity1 f == 0) /\
  (forall f, f < 0.45 -> sceneOpacity3 f == 0) /\
  (forall f, 0.65 < f -> sceneOpacity3 f == 0) /\
  (forall f, f < 0.65 -> sceneOpacity4 f == 0) /\
  (forall f, 0.75 < f -> sceneOpacity4 f == 1) /\
  (forall f, f < 0 -> scene1TranslateY f == 0) /\
  (forall f, 0.25 < f -> scene1TranslateY f == -100).
Proof.
  split; [apply (lipschitz_continuous _ 10); [lra | exact sceneOpacity1_lipschitz]|].
  split; [apply (lipschitz_continuous _ 20); [lra | exact sceneOpacity3_lipschitz]|].
  split; [apply (lipschitz_continuous _ 10); [lra | exact sceneOpacity4_lipschitz]|].
  split; [apply (lipschitz_continuous _ 400); [lra | exact scene1TranslateY_lipschitz]|].
  curves. repeat split; intros f Hf; curve_cases; lra.
Qed.

(** C8: the progress mappings are total functions of type [Q -> Q]; each
    one gives on [f] what it gives on [f] clamped to its first and last
    breakpoint; the opacities stay in [0, 1]; and the segments between equal
    consecutive values (Section1 on [0, 0.15], Section3 on [0.55, 0.6], the
    wave on [0.3, 0.35]) are constant. *)
Theorem progress_mappings_clamped_total :
  (forall f,
     sceneOpacity1 f == sceneOpacity1 (clamp 0 0.25 f) /\
     sceneOpacity3 f == sceneOpacity3 (clamp 0.45 0.65 f) /\
     sceneOpacity4 f == sceneOpacity4 (clamp 0.65 0.75 f) /\
     scene1TranslateY f == scene1TranslateY (clamp 0 0.25 f) /\
     waveY f == waveY (clamp 0.2 0.45 f) /\
     0 <= sceneOpacity1 f <= 1 /\ 0 <= sceneOpacity3 f <= 1 /\
     0 <= sceneOpacity4 f <= 1) /\
  (forall f, 0 <= f <= 0.15 -> sceneOpacity1 f == 1) /\
  (forall f, 0.55 <= f <= 0.6 -> sceneOpacity3 f == 1) /\
  (forall f, 0.3 <= f <= 0.35 -> waveY f == 0).
Proof.
  split; [intros f; curves; repeat split; curve_cases; lra|].
  curves. repeat split; intros f Hf; curve_cases; lra.
Qed.

(** ** Generator lemmas *)

(** [mapM] over consecutive indices with a fixed number [k] of draws per
    element. *)
Lemma mapM_seq_fixed_step {B} (f : nat -> Rand B) (g : nat -> nat -> B) (k : nat)
  (random : nat -> Q) :
  (forall x p, f x random p = (g x p, (p + k)%nat)) ->
  forall len s p,
  mapM f (seq s len) random p =
    (map (fun i => g (s + i)%nat (p + i * k)%nat) (seq 0 len), (p + len * k)%nat).
Proof.
  intros Hf len. induction len as [|len IH]; intros s p; simpl.
  - unfold ret. f_equal; lia.
  - unfold bind. rewrite Hf, IH. unfold ret. f_equal; [|lia].
    rewrite !Nat.add_0_r. f_equal.
    rewrite <- (seq_shift len 0), map_map. apply map_ext. intros i. f_equal; lia.
Qed.

Lemma generateWindow_run (id : nat) (random : nat -> Q) (p : nat) :
  generateWindow id random p =
    (BuildingWindow.mk id (gtb (random p) 0.8) (random (S p)), (p + 2)%nat).
Proof. unfold generateWindow, bind, mathRandom, ret. simpl. do 2 f_equal. lia. Qed.

Lemma generateWindows_run (count : nat) (random : nat -> Q) (p : nat) :
  generateWindows count random p =
    (map (fun j => BuildingWindow.mk j (gtb (random (p + j * 2)%nat) 0.8)
                                     (random (S (p + j * 2))))
         (seq 0 count),
     (p + count * 2)%nat).
Proof.
  unfold generateWindows, arrayFrom.
  rewrite (mapM_seq_fixed_step _
             (fun x q => BuildingWindow.mk x (gtb (random q) 0.8) (random (S q))) 2)
    by (intros; apply generateWindow_run).
  reflexivity.
Qed.

Lemma generateBuilding_run (id w : nat) (random : nat -> Q) (p : nat) :
  generateBuilding id w random p = (building_at random w id p, (p + (2 + w * 2))%nat).
Proof.
  unfold generateBuilding, bind, mathRandom, ret.
  rewrite generateWindows_run. unfold building_at. simpl. f_equal. lia.
Qed.

Lemma generateBuildings_run (n w : nat) (random : nat -> Q) (p : nat) :
  generateBuildings n w random p =
    (map (fun i => building_at random w i (p + i * (2 + w * 2))%nat) (seq 0 n),
     (p + n * (2 + w * 2))%nat).
Proof.
  unfold generateBuildings, arrayFrom.
  rewrite (mapM_seq_fixed_step _ (building_at random w) (2 + w * 2))
    by (intros; apply generateBuilding_run).
  reflexivity.
Qed.

Lemma nth_error_map_seq {A} (F : nat -> A) (n i : nat) (a : A) :
  nth_error (map F (seq 0 n)) i = Some a -> (i < n)%nat /\ a = F i.
Proof.
  intros H. rewrite nth_error_map in H.
  destruct (nth_error (seq 0 n) i) as [k|] eqn:E; [|discriminate].
  injection H as <-. apply nth_error_In in E as Hin. apply in_seq in Hin.
  rewrite nth_error_seq in E. destruct (Nat.ltb_spec i n); [|discriminate].
  injection E as <-. split; [lia|reflexivity].
Qed.

(** ** Claims about the skyline generator *)

(** C6: [generateBuildings buildingCount windowsPerBuilding] returns exactly
    [buildingCount] buildings with ids [0 .. buildingCount - 1]; building [i]
    takes its draws from position [q = p + i * (2 + 2 * windowsPerBuilding)]:
    its height is [20 + 60 * u] for the draw [u] at [q], which lies in
    [20, 80] when every draw of [Math.random()] lies in [0, 1); it has
    exactly [windowsPerBuilding] windows, window [j] with id [j], lit
    ([isYellow]) iff its first draw is [> 0.8] and opacity its second draw;
    and it has an antenna iff the last draw is [> 0.6]. *)
Theorem generateBuildings_spec (random : nat -> Q) (buildingCount windowsPerBuilding p : nat)
  (Hrandom : forall k, 0 <= random k < 1) :
  let w := windowsPerBuilding in
  let bs := fst (generateBuildings buildingCount w random p) in
  length bs = buildingCount /\
  map Building.id bs = seq 0 buildingCount /\
  forall i b, nth_error bs i = Some b ->
    let q := (p + i * (2 + w * 2))%nat in
    Building.id b = i /\
    Building.height b = 20 + random q * 60 /\
    20 <= Building.height b <= 80 /\
    length (Building.windows b) = w /\
    (forall j win, nth_error (Building.windows b) j = Some win ->
       BuildingWindow.id win = j /\
       BuildingWindow.isYellow win = gtb (random (S q + j * 2)%nat) 0.8 /\
       BuildingWindow.opacity win = random (S (S q + j * 2))) /\
    Building.hasAntenna b = gtb (random (S q + w * 2)%nat) 0.6.
Proof.
  cbv zeta. rewrite generateBuildings_run. simpl fst.
  split; [rewrite length_map, length_seq; reflexivity|].
  split.
  { rewrite map_map. unfold building_at. simpl. apply map_id. }
  intros i b Hb. apply nth_error_map_seq in Hb as [Hi ->].
  unfold building_at; simpl.
  split; [reflexivity|]. split; [reflexivity|].
  split. { match goal with |- context[random ?k] => destruct (Hrandom k) end. lra. }
  split; [rewrite length_map, length_seq; reflexivity|].
  split; [|reflexivity].
  intros j win Hw. apply nth_error_map_seq in Hw as [Hj ->]. simpl.
  repeat split.
Qed.

(** C10 (as stated): every window opacity lies in [0, 1) and every height in
    [20, 80), never exactly 80.  The height fails in binary64: for the draw
    [u = 1 - 2^-53], which [Math.random()] may return, [20 + u * 60] rounds
    to exactly 80. *)
Lemma height_never_80_counterexample :
  ~ (forall u : float,
       (0 <=? u)%float = true -> (u <? 1)%float = true ->
       FloatHeight.height u <> 80%float).
Proof.
  intros H. apply (H FloatHeight.largest_draw); vm_compute; reflexivity.
Qed.

(** C10 (amended): every generated window's opacity is a draw of
    [Math.random()], in [0, 1) and never 1.  A building's height
    [20 + 60 * u] lies in [20, 80) in exact arithmetic, but evaluated in
    binary64, as the code does, the admissible draw [u = 1 - 2^-53] gives
    exactly 80: the upper endpoint is attained. *)
Theorem generated_opacity_half_open_height_rounds (random : nat -> Q)
  (buildingCount windowsPerBuilding p : nat)
  (Hrandom : forall k, 0 <= random k < 1) :
  (forall b, In b (fst (generateBuildings buildingCount windowsPerBuilding random p)) ->
     (20 <= Building.height b < 80) /\
     forall win, In win (Building.windows b) ->
       0 <= BuildingWindow.opacity win < 1 /\ ~ (BuildingWindow.opacity win == 1)) /\
  (0 <=? FloatHeight.largest_draw)%float = true /\
  (FloatHeight.largest_draw <? 1)%float = true /\
  FloatHeight.height FloatHeight.largest_draw = 80%float.
Proof.
  split; [|vm_compute; repeat split].
  rewrite generateBuildings_run. simpl fst.
  intros b Hb. apply in_map_iff in Hb as (i & <- & _).
  unfold building_at; simpl. split.
  - match goal with |- context[random ?k] => destruct (Hrandom k) end. lra.
  - intros win Hw. apply in_map_iff in Hw as (j & <- & _). simpl.
    match goal with |- context[random ?k] => destruct (Hrandom k) end.
    split; [lra|]. intros E. lra.
Qed.

(** ** Theme hook lemmas *)

Open Scope string_scope.

Lemma getInitialTheme_light_or_dark (window : option ThemeHook.Browser) :
  ThemeHook.getInitialTheme window = "light" \/ ThemeHook.getInitialTheme window = "dark".
Proof.
  destruct window as [b|]; simpl; [|left; reflexivity].
  destruct (ThemeHook.localStorage b !! "theme") as [s|];
    [case_bool_decide as Hs; [destruct Hs; [left|right]; assumption|]|];
    destruct (ThemeHook.prefersDark b); auto.
Qed.

Lemma toggleUpdater_changes (t : string) :
  t = "light" \/ t = "dark" -> ThemeHook.toggleUpdater t <> t.
Proof.
  intros [-> | ->]; unfold ThemeHook.toggleUpdater; simpl; discriminate.
Qed.

(** The invariant of every reachable state: the theme is ["light"] or
    ["dark"], the effect has run for it, [localStorage] holds it under
    ["theme"] and the root element carries it as [data-theme]. *)
Lemma reachable_inv (b : ThemeHook.Browser) (st : ThemeHook.HookState) :
  ThemeHook.reachable b st ->
  (ThemeHook.theme st = "light" \/ ThemeHook.theme st = "dark") /\
  ThemeHook.effectDeps st = Some (ThemeHook.theme st) /\
  ThemeHook.storage st !! "theme" = Some (ThemeHook.theme st) /\
  ThemeHook.dataTheme st = Some (ThemeHook.theme st).
Proof.
  induction 1 as [|st _ (Ht & Hdeps & _ & _)].
  - unfold ThemeHook.mount.
    pose proof (getInitialTheme_light_or_dark (Some b)) as Ht.
    generalize dependent (ThemeHook.getInitialTheme (Some b)); intros t Ht.
    unfold ThemeHook.commit; simpl.
    split; [exact Ht|].
    split; [reflexivity|]. split; [apply lookup_insert_eq|reflexivity].
  - unfold ThemeHook.toggleTheme, ThemeHook.commit; simpl.
    rewrite Hdeps. rewrite decide_False.
    2:{ intros E. injection E as E. apply (toggleUpdater_changes _ Ht). congruence. }
    simpl. split.
    + unfold ThemeHook.toggleUpdater. case_decide; auto.
    + split; [reflexivity|]. split; [apply lookup_insert_eq|reflexivity].
Qed.

(** A toggle from a state whose effect has run for a theme ["light"] or
    ["dark"] changes the theme, so the effect runs again. *)
Lemma toggleTheme_run (st : ThemeHook.HookState) :
  (ThemeHook.theme st = "light" \/ ThemeHook.theme st = "dark") ->
  ThemeHook.effectDeps st = Some (ThemeHook.theme st) ->
  ThemeHook.toggleTheme st =
    ThemeHook.themeEffect
      (ThemeHook.mkHookState (ThemeHook.toggleUpdater (ThemeHook.theme st))
         (ThemeHook.storage st) (ThemeHook.dataTheme st) (ThemeHook.effectDeps st)).
Proof.
  intros Ht Hdeps. unfold ThemeHook.toggleTheme, ThemeHook.commit. simpl.
  rewrite Hdeps, decide_False; [reflexivity|].
  intros E. injection E as E. apply (toggleUpdater_changes _ Ht). congruence.
Qed.

(** ** Claims about the theme hook *)

(** C7: the initial theme is the stored ["theme"] value when it is
    ["light"] or ["dark"]; otherwise ["dark"] when the system prefers dark;
    otherwise ["light"] (also without a [window]).  In every reachable state
    [localStorage] holds the current theme, and every toggle writes the new
    theme into [localStorage] under ["theme"]. *)
Theorem initial_theme_priority_and_persisted :
  (forall b s, ThemeHook.localStorage b !! "theme" = Some s ->
     s = "light" \/ s = "dark" -> ThemeHook.getInitialTheme (Some b) = s) /\
  (forall b, (forall s, ThemeHook.localStorage b !! "theme" = Some s ->
                s <> "light" /\ s <> "dark") ->
     ThemeHook.prefersDark b = true -> ThemeHook.getInitialTheme (Some b) = "dark") /\
  (forall b, (forall s, ThemeHook.localStorage b !! "theme" = Some s ->
                s <> "light" /\ s <> "dark") ->
     ThemeHook.prefersDark b = false -> ThemeHook.getInitialTheme (Some b) = "light") /\
  ThemeHook.getInitialTheme None = "light" /\
  (forall b st, ThemeHook.reachable b st ->
     ThemeHook.storage st !! "theme" = Some (ThemeHook.theme st)) /\
  (forall b st, ThemeHook.reachable b st ->
     ThemeHook.storage (ThemeHook.toggleTheme st) =
       <["theme" := ThemeHook.theme (ThemeHook.toggleTheme st)]> (ThemeHook.storage st)).
Proof.
  split; [|split; [|split; [|split; [|split]]]].
  - intros b s Hs Hld. simpl. rewrite Hs. rewrite bool_decide_true by exact Hld.
    reflexivity.
  - intros b Hnot Hdark. simpl. rewrite Hdark.
    destruct (ThemeHook.localStorage b !! "theme") as [s|] eqn:E; [|reflexivity].
    rewrite bool_decide_false; [reflexivity|].
    destruct (Hnot s eq_refl). intros [|]; contradiction.
  - intros b Hnot Hlight. simpl. rewrite Hlight.
    destruct (ThemeHook.localStorage b !! "theme") as [s|] eqn:E; [|reflexivity].
    rewrite bool_decide_false; [reflexivity|].
    destruct (Hnot s eq_refl). intros [|]; contradiction.
  - reflexivity.
  - intros b st Hr. apply (reachable_inv b st Hr).
  - intros b st Hr. destruct (reachable_inv b st Hr) as (Ht & Hdeps & _ & _).
    rewrite (toggleTheme_run st Ht Hdeps). reflexivity.
Qed.

(** C9: the toggle maps ["light"] to ["dark"] and ["dark"] to ["light"]; in
    every reachable state the theme is ["light"] or ["dark"], and toggling
    twice gives back the very same state (theme, storage, [data-theme]). *)
Theorem theme_binary_toggle_involution :
  ThemeHook.toggleUpdater "light" = "dark" /\
  ThemeHook.toggleUpdater "dark" = "light" /\
  forall b st, ThemeHook.reachable b st ->
    (ThemeHook.theme st = "light" \/ ThemeHook.theme st = "dark") /\
    ThemeHook.toggleTheme (ThemeHook.toggleTheme st) = st.
Proof.
  split; [reflexivity|]. split; [reflexivity|].
  intros b st Hr. destruct (reachable_inv b st Hr) as (Ht & Hdeps & Hstore & Hdata).
  split; [exact Ht|].
  destruct st as [t m d e]; simpl in *. subst e d.
  rewrite (toggleTheme_run (ThemeHook.mkHookState t m (Some t) (Some t)))
    by (simpl; auto).
  assert (Ht' : ThemeHook.toggleUpdater t = "light" \/ ThemeHook.toggleUpdater t = "dark")
    by (destruct Ht as [-> | ->]; auto).
  rewrite toggleTheme_run; [| exact Ht' | reflexivity].
  unfold ThemeHook.themeEffect; simpl.
  assert (Htt : ThemeHook.toggleUpdater (ThemeHook.toggleUpdater t) = t)
    by (destruct Ht as [-> | ->]; reflexivity).
  rewrite Htt, insert_insert_eq, insert_id by exact Hstore. reflexivity.
Qed.

(** ** Witnesses: each theorem with hypotheses applied at a concrete input *)

Lemma scene3_interactive_iff_opacity_witness :
  0.1 < sceneOpacity3 0.5 /\ scene3PointerEvents 0.5 = auto.
Proof.
  assert (H : 0.1 < sceneOpacity3 0.5) by (vm_compute; reflexivity).
  split; [exact H|]. apply (proj2 (proj1 (scene3_interactive_iff_opacity 0.5))). exact H.
Defined.


Lemma sceneOpacity1_fade_out_witness :
  (0.15 <= 0.2 /\ 0.2 <= 0.22) /\ sceneOpacity1 0.22 <= sceneOpacity1 0.2.
Proof.
  split; [split; lra|]. apply (proj1 sceneOpacity1_fade_out); lra.
Defined.

Lemma section_curves_continuous_and_flat_outside_witness :
  0 < 0.01 /\
  exists delta, 0 < delta /\
    forall x, Qabs (x - 0.15) < delta -> Qabs (sceneOpacity1 x - sceneOpacity1 0.15) < 0.01.
Proof.
  split; [lra|]. apply (proj1 section_curves_continuous_and_flat_outside 0.15). lra.
Defined.

Lemma progress_mappings_clamped_total_witness :
  0 <= 0.1 <= 0.15 /\ sceneOpacity1 0.1 == 1.
Proof.
  split; [lra|]. apply (proj1 (proj2 progress_mappings_clamped_total) 0.1). lra.
Defined.

Lemma generateBuildings_spec_witness :
  (forall k : nat, 0 <= (fun _ : nat => 0.5) k < 1) /\
  length (fst (generateBuildings 2%nat 1%nat (fun _ => 0.5) 0%nat)) = 2%nat.
Proof.
  assert (H : forall k : nat, 0 <= (fun _ : nat => 0.5) k < 1) by (intros; lra).
  split; [exact H|].
  pose proof (generateBuildings_spec (fun _ => 0.5) 2%nat 1%nat 0%nat H) as T.
  cbv zeta in T. exact (proj1 T).
Defined.

Lemma generated_opacity_half_open_height_rounds_witness :
  (forall k : nat, 0 <= (fun _ : nat => 0.5) k < 1) /\
  FloatHeight.height FloatHeight.largest_draw = 80%float.
Proof.
  assert (H : forall k : nat, 0 <= (fun _ : nat => 0.5) k < 1) by (intros; lra).
  split; [exact H|].
  exact (proj2 (proj2 (proj2 (generated_opacity_half_open_height_rounds
                                  (fun _ => 0.5) 2%nat 1%nat 0%nat H)))).
Defined.

Lemma initial_theme_priority_and_persisted_witness :
  ThemeHook.getInitialTheme
    (Some (ThemeHook.mkBrowser (<["theme" := "dark"]> ∅) false)) = "dark".
Proof.
  apply (proj1 initial_theme_priority_and_persisted _ "dark");
    [reflexivity | right; reflexivity].
Defined.

Lemma theme_binary_toggle_involution_witness :
  let b := ThemeHook.mkBrowser ∅ true in
  ThemeHook.reachable b (ThemeHook.mount b) /\
  ThemeHook.toggleTheme (ThemeHook.toggleTheme (ThemeHook.mount b)) = ThemeHook.mount b.
Proof.
  cbv zeta. split; [apply ThemeHook.reachable_mount|].
  apply (proj2 (proj2 (proj2 theme_binary_toggle_involution) _ _
                  (ThemeHook.reachable_mount _))).
Defined.

(** ** Further properties of the progress curves *)

Ltac more_curves :=
  unfold sceneOpacity1, sceneOpacity3, sceneOpacity4, scene1TranslateY, waveY,
    contentOpacity, sunY, sunOpacity, cityY, cityOpacity.

Ltac close_branch :=
  intros;
  first [ lra | split; lra | left; lra | right; lra | exfalso; lra
        | split; intro; first [ reflexivity | discriminate | exfalso; lra | lra | split; lra ] ].

(** The sections never show together: at every progress at least one of
    Section1 and Section3, one of Section3 and Section4, and one of Section1
    and Section4 has opacity 0. *)
Theorem sections_never_overlap (f : Q) :
  (sceneOpacity1 f == 0 \/ sceneOpacity3 f == 0) /\
  (sceneOpacity3 f == 0 \/ sceneOpacity4 f == 0) /\
  (sceneOpacity1 f == 0 \/ sceneOpacity4 f == 0).
Proof. more_curves. repeat split; curve_cases; close_branch. Qed.

(** Section3 accepts pointer events exactly for smoothed progress strictly
    between 0.46 and 0.645. *)
Theorem scene3_interactive_window (f : Q) :
  scene3PointerEvents f = auto <-> 0.46 < f < 0.645.
Proof.
  unfold scene3PointerEvents; cbv zeta. more_curves. curve_cases; close_branch.
Qed.

(** Section4 opacity never decreases as progress grows, stays in [0, 1],
    and is 1 from progress 0.75 on. *)
Theorem sceneOpacity4_fade_in :
  (forall f1 f2, f1 <= f2 -> sceneOpacity4 f1 <= sceneOpacity4 f2) /\
  (forall f, 0 <= sceneOpacity4 f <= 1) /\
  (forall f, 0.75 <= f -> sceneOpacity4 f == 1).
Proof.
  more_curves. split; [|split].
  - intros f1 f2 H. curve_cases; lra.
  - intros f. curve_cases; lra.
  - intros f H. curve_cases; lra.
Qed.

(** Section1 moves up as progress grows: its translateY never increases,
    stays in [-100, 0], and is [-400 * f] on [0, 0.25]. *)
Theorem scene1TranslateY_moves_up :
  (forall f1 f2, f1 <= f2 -> scene1TranslateY f2 <= scene1TranslateY f1) /\
  (forall f, -100 <= scene1TranslateY f <= 0) /\
  (forall f, 0 <= f <= 0.25 -> scene1TranslateY f == -400 * f).
Proof.
  more_curves. split; [|split].
  - intros f1 f2 H. curve_cases; lra.
  - intros f. curve_cases; lra.
  - intros f H. curve_cases; lra.
Qed.


(** The beach sun and the city skyline never show together: the sun has
    faded out (opacity 0) by progress 0.3 and the city starts fading in only
    after 0.35. *)
Theorem sun_and_city_never_together (f : Q) :
  (sunOpacity f == 0 \/ cityOpacity f == 0) /\
  (0 < sunOpacity f -> f < 0.3) /\
  (0 < cityOpacity f -> 0.35 < f).
Proof. more_curves. split; [|split]; curve_cases; close_branch. Qed.

(** The sun rises out of view and the skyline rises into place: [sunY]
    never increases and stays in [-200, 100]; [cityY] never increases, stays
    in [0, 600] and is 0 from progress 0.55 on. *)
Theorem sun_and_city_rise :
  (forall f1 f2, f1 <= f2 -> sunY f2 <= sunY f1) /\
  (forall f, -200 <= sunY f <= 100) /\
  (forall f1 f2, f1 <= f2 -> cityY f2 <= cityY f1) /\
  (forall f, 0 <= cityY f <= 600) /\
  (forall f, 0.55 <= f -> cityY f == 0).
Proof.
  more_curves. repeat split; intros; curve_cases; lra.
Qed.

(** ** Further properties of the generators, the age and the marquee *)

Lemma citySkylineBuildings_run (isMobile : bool) (random : nat -> Q) (p : nat) :
  citySkylineBuildings isMobile random p =
    generateBuildings (if isMobile then 8 else 15) (if isMobile then 6 else 12) random p.
Proof. unfold citySkylineBuildings. destruct isMobile; reflexivity. Qed.

(** On a phone the skyline has 8 buildings of 6 windows and takes 112 draws;
    otherwise 15 buildings of 12 windows and 390 draws. *)
Theorem citySkyline_layout (isMobile : bool) (random : nat -> Q) (p : nat) :
  let '(bs, p') := citySkylineBuildings isMobile random p in
  map Building.id bs = seq 0 (if isMobile then 8 else 15) /\
  Forall (fun b => length (Building.windows b) = if isMobile then 6%nat else 12%nat) bs /\
  p' = (p + if isMobile then 112 else 390)%nat.
Proof.
  rewrite citySkylineBuildings_run, generateBuildings_run.
  split; [|split].
  - rewrite map_map. unfold building_at. simpl. apply map_id.
  - apply List.Forall_forall. intros b Hb. apply in_map_iff in Hb as (i & <- & _).
    unfold building_at. simpl. rewrite length_map, length_seq. reflexivity.
  - destruct isMobile; lia.
Qed.

(** The inline skyline of [BackgroundLayer] draws the same buildings, from the
    same draws, as [generateBuildings 15 12]. *)
Theorem backgroundLayer_is_generateBuildings (random : nat -> Q) (p : nat) :
  backgroundLayerBuildings random p = generateBuildings 15 12 random p.
Proof.
  rewrite generateBuildings_run. unfold backgroundLayerBuildings, arrayFrom.
  apply (mapM_seq_fixed_step _ (building_at random 12) (2 + 12 * 2)).
  intros x q. unfold bind at 1, mathRandom at 1.
  unfold bind at 1.
  rewrite (mapM_seq_fixed_step _
             (fun j q => BuildingWindow.mk j (gtb (random q) 0.8) (random (S q))) 2).
  - unfold bind, mathRandom, ret, building_at. simpl. repeat f_equal; lia.
  - intros y r. unfold bind, mathRandom, ret. simpl. f_equal. lia.
Qed.

Lemma clouds_run (random : nat -> Q) (p : nat) :
  clouds random p =
    (map (fun i =>
            let q := (p + i * 5)%nat in
            Cloud.mk i (random q * 120 - 20) (10 + random (S q) * 40)
                     (0.6 + random (S (S q)) * 0.8) (40 + random (S (S (S q))) * 30)
                     (random (S (S (S (S q)))) * 20)
                     (if Nat.ltb i 4 then front else back))
         (seq 0 8),
     (p + 40)%nat).
Proof.
  unfold clouds, arrayFrom.
  rewrite (mapM_seq_fixed_step _
    (fun i q => Cloud.mk i (random q * 120 - 20) (10 + random (S q) * 40)
                     (0.6 + random (S (S q)) * 0.8) (40 + random (S (S (S q))) * 30)
                     (random (S (S (S (S q)))) * 20)
                     (if Nat.ltb i 4 then front else back)) 5).
  - reflexivity.
  - intros x q. unfold bind, mathRandom, ret. f_equal. lia.
Qed.

Lemma stars_run (random : nat -> Q) (p : nat) :
  stars random p =
    (map (fun i =>
            let q := (p + i * 5)%nat in
            Star.mk i (random q * 100) (random (S q) * 60) (random (S (S q)) * 2 + 1)
                    (random (S (S (S q))) * 0.7 + 0.3) (random (S (S (S (S q)))) * 3))
         (seq 0 50),
     (p + 250)%nat).
Proof.
  unfold stars, arrayFrom.
  rewrite (mapM_seq_fixed_step _
    (fun i q => Star.mk i (random q * 100) (random (S q) * 60) (random (S (S q)) * 2 + 1)
                    (random (S (S (S q))) * 0.7 + 0.3) (random (S (S (S (S q)))) * 3)) 5).
  - reflexivity.
  - intros x q. unfold bind, mathRandom, ret. f_equal. lia.
Qed.

(** With every draw of [Math.random()] in [0, 1), [Clouds] makes 8 clouds
    with ids 0 .. 7 from 40 draws; the first four are in the front layer and
    the other four behind; every field stays in its range. *)
Theorem clouds_layout (random : nat -> Q) (p : nat)
  (Hrandom : forall k, 0 <= random k < 1) :
  let '(cs, p') := clouds random p in
  map Cloud.id cs = seq 0 8 /\ p' = (p + 40)%nat /\
  Forall (fun c =>
    (Cloud.layer c = front <-> (Cloud.id c < 4)%nat) /\
    -20 <= Cloud.x c < 100 /\ 10 <= Cloud.y c < 50 /\
    0.6 <= Cloud.scale c < 1.4 /\ 40 <= Cloud.duration c < 70 /\
    0 <= Cloud.delay c < 20) cs.
Proof.
  rewrite clouds_run. split; [|split].
  - rewrite map_map. apply map_id.
  - reflexivity.
  - apply List.Forall_forall. intros c Hc. apply in_map_iff in Hc as (i & <- & _).
    cbn [Cloud.id Cloud.x Cloud.y Cloud.scale Cloud.duration Cloud.delay Cloud.layer].
    repeat match goal with |- context[random ?k] => destruct (Hrandom k); generalize dependent (random k); intros end.
    split.
    + destruct (Nat.ltb_spec i 4); split; intros; try lia; congruence.
    + repeat split; lra.
Qed.

(** With every draw in [0, 1), [BeachStars] makes 50 stars with ids 0 .. 49
    from 250 draws, every field in its range. *)
Theorem stars_layout (random : nat -> Q) (p : nat)
  (Hrandom : forall k, 0 <= random k < 1) :
  let '(ss, p') := stars random p in
  map Star.id ss = seq 0 50 /\ p' = (p + 250)%nat /\
  Forall (fun s =>
    0 <= Star.x s < 100 /\ 0 <= Star.y s < 60 /\ 1 <= Star.size s < 3 /\
    0.3 <= Star.opacity s < 1 /\ 0 <= Star.delay s < 3) ss.
Proof.
  rewrite stars_run. split; [|split].
  - rewrite map_map. apply map_id.
  - reflexivity.
  - apply List.Forall_forall. intros s Hs. apply in_map_iff in Hs as (i & <- & _).
    cbn [Star.id Star.x Star.y Star.size Star.opacity Star.delay].
    repeat match goal with |- context[random ?k] => destruct (Hrandom k); generalize dependent (random k); intros end.
    repeat split; lra.
Qed.

(** The age is the number of birthdays passed: the birthday of year
    [2000 + age] is on or before [hoje] and the next one is after it. *)
Theorem calcularIdade_counts_birthdays (hoje : Date) :
  date_le (birthday (2000 + calcularIdade hoje)) hoje /\
  ~ date_le (birthday (2001 + calcularIdade hoje)) hoje.
Proof.
  destruct hoje as [y m d]. unfold calcularIdade, date_le, birthday, nascimento. simpl.
  destruct (Z.ltb_spec (m - 1) 0); simpl;
  [| destruct (Z.eqb_spec (m - 1) 0); simpl;
     [destruct (Z.ltb_spec d 14); simpl|]]; split; lia.
Qed.

(** The age never goes down: a later date never gives a smaller age. *)
Theorem calcularIdade_monotone (a b : Date) (Hab : date_le a b) :
  (calcularIdade a <= calcularIdade b)%Z.
Proof.
  destruct (calcularIdade_counts_birthdays a) as [Ha _].
  destruct (calcularIdade_counts_birthdays b) as [_ Hb].
  destruct a as [ya ma da], b as [yb mb db].
  unfold date_le, birthday in *. simpl in *.
  destruct (Z.le_gt_cases (calcularIdade (mkDate ya ma da)) (calcularIdade (mkDate yb mb db))); [assumption|].
  exfalso. apply Hb. lia.
Qed.

Lemma list_ascii_of_string_append (s1 s2 : string) :
  list_ascii_of_string (String.append s1 s2) =
    (list_ascii_of_string s1 ++ list_ascii_of_string s2)%list.
Proof. induction s1 as [|c s1 IH]; simpl; [reflexivity | now rewrite IH]. Qed.

Lemma uint_to_string_no_dash (d : Decimal.uint) :
  ~ In "-"%char (list_ascii_of_string (uint_to_string d)).
Proof.
  induction d; simpl; try tauto; intros [H|H]; try discriminate; tauto.
Qed.

Lemma uint_to_string_inj (d1 d2 : Decimal.uint) :
  uint_to_string d1 = uint_to_string d2 -> d1 = d2.
Proof.
  revert d2. induction d1; destruct d2; simpl; intros H;
    try discriminate; try reflexivity; injection H as H; f_equal; auto.
Qed.

Lemma nat_to_string_inj (i j : nat) : nat_to_string i = nat_to_string j -> i = j.
Proof.
  unfold nat_to_string. intros H. apply uint_to_string_inj in H.
  rewrite <- (DecimalNat.Unsigned.of_to i), <- (DecimalNat.Unsigned.of_to j), H.
  reflexivity.
Qed.

(** The text after the last dash: two strings [s ++ "-" ++ d] whose tails
    [d] contain no dash have equal tails when they are equal. *)
Lemma append_dash_tail (s1 s2 d1 d2 : string) :
  ~ In "-"%char (list_ascii_of_string d1) ->
  ~ In "-"%char (list_ascii_of_string d2) ->
  String.append s1 (String "-" d1) = String.append s2 (String "-" d2) ->
  d1 = d2.
Proof.
  intros H1 H2. revert s2. induction s1 as [|c s1 IH]; destruct s2 as [|c' s2]; simpl;
    intros H; injection H as H.
  - exact H.
  - subst d1. exfalso. apply H1. rewrite list_ascii_of_string_append. simpl.
    apply in_or_app. right. left. reflexivity.
  - subst d2. exfalso. apply H2. rewrite list_ascii_of_string_append. simpl.
    apply in_or_app. right. left. reflexivity.
  - exact (IH s2 H0).
Qed.

Lemma map_combine_seq {A B} (F : nat -> A -> B) (d : A) (l : list A) (s : nat) :
  map (fun '(i, x) => F i x) (combine (seq s (length l)) l) =
    map (fun i => F i (nth (i - s) l d)) (seq s (length l)).
Proof.
  revert s. induction l as [|x l IH]; intros s; simpl; [reflexivity|].
  rewrite Nat.sub_diag, IH. f_equal. apply map_ext_in. intros i Hi.
  apply in_seq in Hi. f_equal. destruct (i - s)%nat eqn:E; [lia|].
  f_equal. lia.
Qed.

Lemma repeatedTechs_nth (techs : list string) :
  repeatedTechs techs =
    map (fun i =>
           let tech := nth i (techs ++ techs ++ techs)%list "" in
           TechItem.mk (String.append "wave-tech-"
                          (String.append tech (String.append "-" (nat_to_string i))))
                       tech)
        (seq 0 (length (techs ++ techs ++ techs)%list)).
Proof.
  unfold repeatedTechs. rewrite (map_combine_seq _ "").
  apply map_ext. intros i. rewrite Nat.sub_0_r. reflexivity.
Qed.

(** The marquee shows the technologies three times, in order, and the React
    keys of its items are pairwise distinct, for any list of technologies
    (also one with repeated names or names containing dashes). *)
Theorem repeatedTechs_thrice_unique_ids (techs : list string) :
  map TechItem.tech (repeatedTechs techs) = (techs ++ techs ++ techs)%list /\
  List.NoDup (map TechItem.id (repeatedTechs techs)).
Proof.
  rewrite repeatedTechs_nth. split.
  - rewrite map_map. simpl. set (all := (techs ++ techs ++ techs)%list).
    clearbody all. induction all as [|x l IH] using rev_ind; [reflexivity|].
    rewrite length_app, seq_app, map_app. simpl.
    rewrite app_nth2 by lia. rewrite Nat.sub_diag. simpl. f_equal.
    rewrite <- IH at 2. apply map_ext_in. intros i Hi. apply in_seq in Hi.
    apply app_nth1. lia.
  - rewrite map_map. apply NoDup_map_NoDup_ForallPairs; [|apply seq_NoDup].
    intros i j _ _ H. simpl in H. injection H as H.
    apply append_dash_tail in H; try apply uint_to_string_no_dash.
    now apply nat_to_string_inj.
Qed.

(** ** Witnesses of the further properties *)

Lemma scene3_interactive_window_witness :
  0.46 < 0.5 < 0.645 /\ scene3PointerEvents 0.5 = auto.
Proof.
  assert (H : 0.46 < 0.5 < 0.645) by lra.
  split; [exact H|]. apply (proj2 (scene3_interactive_window 0.5)). exact H.
Defined.

Lemma sceneOpacity4_fade_in_witness :
  0.7 <= 0.72 /\ sceneOpacity4 0.7 <= sceneOpacity4 0.72.
Proof.
  split; [lra|]. apply (proj1 sceneOpacity4_fade_in); lra.
Defined.

Lemma scene1TranslateY_moves_up_witness :
  0 <= 0.1 <= 0.25 /\ scene1TranslateY 0.1 == -400 * 0.1.
Proof.
  split; [lra|]. apply (proj2 (proj2 scene1TranslateY_moves_up)); lra.
Defined.


Lemma sun_and_city_never_together_witness :
  0 < sunOpacity 0.25 /\ 0.25 < 0.3.
Proof.
  assert (H : 0 < sunOpacity 0.25) by (vm_compute; reflexivity).
  split; [exact H|]. apply (proj1 (proj2 (sun_and_city_never_together 0.25))). exact H.
Defined.

Lemma sun_and_city_rise_witness :
  0.6 <= 0.7 /\ cityY 0.7 == 0.
Proof.
  split; [lra|]. apply (proj2 (proj2 (proj2 (proj2 sun_and_city_rise)))). lra.
Defined.

Lemma clouds_layout_witness :
  (forall k : nat, 0 <= (fun _ : nat => 0.5) k < 1) /\
  map Cloud.id (fst (clouds (fun _ => 0.5) 0%nat)) = seq 0 8.
Proof.
  assert (H : forall k : nat, 0 <= (fun _ : nat => 0.5) k < 1) by (intros; lra).
  split; [exact H|].
  pose proof (clouds_layout (fun _ => 0.5) 0%nat H) as T.
  destruct (clouds (fun _ => 0.5) 0%nat) as [cs p']. exact (proj1 T).
Defined.

Lemma stars_layout_witness :
  (forall k : nat, 0 <= (fun _ : nat => 0.5) k < 1) /\
  map Star.id (fst (stars (fun _ => 0.5) 0%nat)) = seq 0 50.
Proof.
  assert (H : forall k : nat, 0 <= (fun _ : nat => 0.5) k < 1) by (intros; lra).
  split; [exact H|].
  pose proof (stars_layout (fun _ => 0.5) 0%nat H) as T.
  destruct (stars (fun _ => 0.5) 0%nat) as [ss p']. exact (proj1 T).
Defined.

Lemma calcularIdade_counts_birthdays_witness :
  date_le (birthday (2000 + calcularIdade (mkDate 2026 9 16))) (mkDate 2026 9 16).
Proof. exact (proj1 (calcularIdade_counts_birthdays (mkDate 2026 9 16))). Defined.

Lemma calcularIdade_monotone_witness :
  date_le (mkDate 2025 5 1) (mkDate 2026 0 1) /\
  (calcularIdade (mkDate 2025 5 1) <= calcularIdade (mkDate 2026 0 1))%Z.
Proof.
  assert (H : date_le (mkDate 2025 5 1) (mkDate 2026 0 1)) by (unfold date_le; simpl; lia).
  split; [exact H|]. exact (calcularIdade_monotone _ _ H).
Defined.
